(** * fairport/util/util.h: the file primitive and the leaf utilities

    A shallow embedding of [fairport::file] (constructor, [read], [write]),
    of the FILETIME / VT_DATE conversion helpers and of [test_bit], together
    with the properties the specification states about them.

    The C library calls the header makes ([fopen], [fseek] / [_fseeki64],
    [fread], [fwrite]) are modelled in [Module stdio] on one open stream. *)

From Stdlib Require Import ZArith List String Ascii Bool Lia Floats.
Import ListNotations.
Local Open Scope Z_scope.

(** ** Fixed-width integers *)

Module Int.

(** The value of a [w]-bit unsigned integer after wrap-around. *)
Definition to_unsigned (w x : Z) : Z := x mod 2 ^ w.

(** The value of a [w]-bit two's-complement integer after wrap-around. *)
Definition to_signed (w x : Z) : Z :=
  let m := x mod 2 ^ w in
  if m <? 2 ^ (w - 1) then m else m - 2 ^ w.

End Int.

(** ** Exceptions and outcomes *)

(** The exceptions the header throws.  [runtime_error] and [out_of_range]
    are the standard library's; [not_implemented] is declared in
    fairport/util/errors.h and, like them, is built from a message. *)
Inductive exception : Type :=
| runtime_error (what : string)
| out_of_range (what : string)
| not_implemented (what : string).

(** A call either returns a value or leaves by a thrown exception. *)
Inductive outcome (A : Type) : Type :=
| returned (a : A)
| thrown (e : exception).
Arguments returned {A} a.
Arguments thrown {A} e.

Definition is_out_of_range {A} (o : outcome A) : bool :=
  match o with
  | thrown (out_of_range _) => true
  | _ => false
  end.

Definition has_returned {A} (o : outcome A) : bool :=
  match o with
  | returned _ => true
  | thrown _ => false
  end.

(** ** Primitive types *)

(** Modelled from the spec: fairport/util/primatives.h is not part of the
    sources; [byte] is the 8-bit unsigned integer of a byte buffer, kept as
    a [Z]. *)
Definition byte : Type := Z.

(** Modelled from the spec: the width of [ulonglong], the type of the
    64-bit offsets and of the Windows tick values. *)
Definition ulonglong_bits : Z := 64.

(** [time_t] of <time.h>: the signed 64-bit count of seconds of the
    targets below. *)
Definition time_t_bits : Z := 64.

(** [std::wstring]: a sequence of wide-character codes. *)
Definition wstring : Type := list Z.

(** [std::string(filename.begin(), filename.end())]: every wide character
    is converted to a [char]. *)
Definition narrow (w : wstring) : string :=
  string_of_list_ascii
    (map (fun c => Ascii.ascii_of_N (Z.to_N (Int.to_unsigned 8 c))) w).

(** ** The C stream the class wraps *)

Module stdio.

(** A file as the operating system keeps it: [size] bytes, byte [i] being
    [data i] for [0 <= i < size]. *)
Record contents : Type := mkContents {
  size : Z;
  data : Z -> byte
}.

Definition filesystem : Type := string -> option contents.

(** An open stream, together with the file it is open on. *)
Record FILE : Type := mkFILE {
  on_disk : contents;
  can_read : bool;
  can_write : bool;
  appends : bool;
  position : Z;
  error_indicator : bool;
  eof_indicator : bool
}.

Inductive whence : Type := SEEK_SET | SEEK_CUR | SEEK_END.

Fixpoint mentions (c : Ascii.ascii) (s : string) : bool :=
  match s with
  | EmptyString => false
  | String d s' => Ascii.eqb c d || mentions c s'
  end.

Definition empty_contents : contents := mkContents 0 (fun _ => 0).

Definition open_stream (c : contents) (r w a : bool) : FILE :=
  mkFILE c r w a 0 false false.

(** [fopen]: [None] is the null pointer.  An "r" mode needs the file to
    exist, a "w" mode creates or truncates it, an "a" mode creates it when
    missing; a '+' adds the other direction. *)
Definition fopen (fs : filesystem) (filename mode : string) : option FILE :=
  let update := mentions "+" mode in
  match mode with
  | String "r" _ =>
      match fs filename with
      | Some c => Some (open_stream c true update false)
      | None => None
      end
  | String "w" _ => Some (open_stream empty_contents update true false)
  | String "a" _ =>
      match fs filename with
      | Some c => Some (open_stream c update true true)
      | None => Some (open_stream empty_contents update true true)
      end
  | _ => None
  end.

Definition set_position (s : FILE) (p : Z) : FILE :=
  mkFILE (on_disk s) (can_read s) (can_write s) (appends s) p
         (error_indicator s) false.

(** [fseek] and [_fseeki64], which differ in the width of [offset] only:
    a position before the start is refused with a non-zero result; any
    other position is accepted, also one beyond the end of the file, as
    both POSIX and the Microsoft runtime document. *)
Definition fseek (s : FILE) (offset : Z) (origin : whence) : Z * FILE :=
  let target :=
    match origin with
    | SEEK_SET => offset
    | SEEK_CUR => position s + offset
    | SEEK_END => size (on_disk s) + offset
    end in
  if target <? 0 then (-1, s) else (0, set_position s target).

(** The positions [start], [start + 1], ..., [start + n - 1]. *)
Definition span (start n : Z) : list Z :=
  map (fun i => start + Z.of_nat i) (seq 0 (Z.to_nat n)).

(** [fread(ptr, 1, count, s)]: the number of bytes transferred, the bytes
    themselves and the stream afterwards.  Fewer than [count] bytes are
    transferred when the file ends first; with [count = 0] nothing is
    transferred and [ptr] is not used. *)
Definition fread (count : Z) (s : FILE) : Z * list byte * FILE :=
  if negb (can_read s) then
    (0, [],
     mkFILE (on_disk s) (can_read s) (can_write s) (appends s) (position s)
            (error_indicator s || (0 <? count)) (eof_indicator s))
  else
    let available := Z.max 0 (size (on_disk s) - position s) in
    let n := Z.min count available in
    (n, map (data (on_disk s)) (span (position s) n),
     mkFILE (on_disk s) (can_read s) (can_write s) (appends s)
            (position s + n) (error_indicator s)
            (eof_indicator s || (n <? count))).

(** The file after [src] has been stored at position [p]; a gap between
    the old end and [p] reads as zero. *)
Definition store (c : contents) (p : Z) (src : list byte) : contents :=
  let n := Z.of_nat (List.length src) in
  mkContents (Z.max (size c) (p + n))
    (fun i =>
       if (p <=? i) && (i <? p + n) then nth (Z.to_nat (i - p)) src 0
       else if i <? size c then data c i
       else 0).

(** [fwrite(ptr, 1, count, s)] with [src] the [count] bytes at [ptr]: the
    number of bytes transferred and the stream afterwards.  A stream that
    is not open for writing transfers nothing and sets its error
    indicator. *)
Definition fwrite (src : list byte) (s : FILE) : Z * FILE :=
  let n := Z.of_nat (List.length src) in
  if n =? 0 then (0, s)
  else if negb (can_write s) then
    (0, mkFILE (on_disk s) (can_read s) (can_write s) (appends s)
               (position s) true (eof_indicator s))
  else
    let p := if appends s then size (on_disk s) else position s in
    (n, mkFILE (store (on_disk s) p src) (can_read s) (can_write s)
               (appends s) (p + n) (error_indicator s) (eof_indicator s)).

End stdio.

(** ** Build targets *)

(** What the header's [#ifdef _MSC_VER] and the width of [long] depend on. *)
Record target : Type := mkTarget {
  msvc : bool;
  long_bits : Z
}.

(** Microsoft's compiler, GCC on 64-bit Unix, and GCC on 64-bit Windows,
    where [long] keeps 32 bits. *)
Definition msvc_target : target := mkTarget true 32.
Definition lp64 : target := mkTarget false 64.
Definition llp64_gcc : target := mkTarget false 32.

(** The targets whose seek call takes a 64-bit offset. *)
Definition wide_seek (tg : target) : bool := msvc tg || (long_bits tg =? 64).

(** ** namespace fairport *)

Module fairport.

Record file : Type := mkFile {
  m_filename : wstring;
  m_pfile : stdio.FILE
}.

(** [file::file(const std::wstring& filename)]. *)
Definition file_file (fs : stdio.filesystem) (filename : wstring)
  : outcome file :=
  let mode := "rb"%string in
  match stdio.fopen fs (narrow filename) mode with
  | None => thrown (runtime_error "fopen failed")
  | Some pfile => returned (mkFile filename pfile)
  end.

(** The seek both [read] and [write] start with: [_fseeki64] under MSVC,
    [fseek] elsewhere; [offset], a [ulonglong], is converted to the
    parameter's type, [__int64] or [long]. *)
Definition seek (tg : target) (pfile : stdio.FILE) (offset : Z)
  : Z * stdio.FILE :=
  if msvc tg then stdio.fseek pfile (Int.to_signed 64 offset) stdio.SEEK_SET
  else stdio.fseek pfile (Int.to_signed (long_bits tg) offset) stdio.SEEK_SET.

(** What a call of [read] leaves behind: its outcome, the caller's buffer
    and the file object. *)
Record read_effect : Type := mkRead {
  read_result : outcome Z;
  read_buffer : list byte;
  read_this : file
}.

(** [size_t file::read(std::vector<byte>& buffer, ulonglong offset) const]. *)
Definition read (tg : target) (this : file) (buffer : list byte) (offset : Z)
  : read_effect :=
  let size := Z.of_nat (List.length buffer) in
  let '(rc, pfile1) := seek tg (m_pfile this) offset in
  if negb (rc =? 0) then
    mkRead (thrown (out_of_range "fseek failed")) buffer
           (mkFile (m_filename this) pfile1)
  else
    let '(read, bytes, pfile2) := stdio.fread size pfile1 in
    let buffer' := bytes ++ skipn (Z.to_nat read) buffer in
    if negb (read =? size) then
      mkRead (thrown (out_of_range "fread failed")) buffer'
             (mkFile (m_filename this) pfile2)
    else
      mkRead (returned read) buffer' (mkFile (m_filename this) pfile2).

Record write_effect : Type := mkWrite {
  write_result : outcome Z;
  write_this : file
}.

(** [size_t file::write(const std::vector<byte>& buffer, ulonglong offset)]. *)
Definition write (tg : target) (this : file) (buffer : list byte) (offset : Z)
  : write_effect :=
  let size := Z.of_nat (List.length buffer) in
  let '(rc, pfile1) := seek tg (m_pfile this) offset in
  if negb (rc =? 0) then
    mkWrite (thrown (out_of_range "fseek failed"))
            (mkFile (m_filename this) pfile1)
  else
    let '(write, pfile2) := stdio.fwrite buffer pfile1 in
    if negb (write =? size) then
      mkWrite (thrown (out_of_range "fwrite failed"))
              (mkFile (m_filename this) pfile2)
    else
      mkWrite (returned write) (mkFile (m_filename this) pfile2).

Definition jan1970 : Z := 116444736000000000.

(** [(filetime - jan1970) / 10000000]: the subtraction and the division
    are done on [ulonglong], the quotient is converted to [time_t]. *)
Definition filetime_to_time_t (filetime : Z) : Z :=
  Int.to_signed time_t_bits
    (Int.to_unsigned ulonglong_bits (filetime - jan1970) / 10000000).

(** [(time * 10000000) + jan1970]: the product is a [time_t] product
    (one beyond [2^63 - 1] is given its two's-complement value), which is
    converted to [ulonglong] for the addition. *)
Definition time_t_to_filetime (time : Z) : Z :=
  Int.to_unsigned ulonglong_bits
    (Int.to_unsigned ulonglong_bits
       (Int.to_signed time_t_bits (time * 10000000)) + jan1970).

(** Both VT_DATE helpers ignore their argument and throw; the second one
    reuses the first one's message. *)
Definition vt_date_to_time_t (_ : PrimFloat.float) : outcome Z :=
  thrown (not_implemented "vt_date_to_time_t").

Definition time_t_to_vt_date (_ : Z) : outcome PrimFloat.float :=
  thrown (not_implemented "vt_date_to_time_t").

(** [( *(pbytes + (bit >> 3)) & (0x80 >> (bit & 7))) != 0], with [bit] an
    unsigned integer.  The buffer is the memory [pbytes] points to; a read
    outside of it has no value. *)
Definition test_bit (pbytes : list byte) (bit : Z) : option bool :=
  match nth_error pbytes (Z.to_nat (Z.shiftr bit 3)) with
  | Some b => Some (negb (Z.land b (Z.shiftr 128 (Z.land bit 7)) =? 0))
  | None => None
  end.

End fairport.
Import fairport.

(** ** Fixtures used by the examples *)

(** The file whose bytes are the elements of [l]. *)
Definition contents_of_list (l : list byte) : stdio.contents :=
  stdio.mkContents (Z.of_nat (List.length l))
                   (fun i => nth (Z.to_nat i) l 0).

(** A file system holding the one file [c] under the name [name]. *)
Definition single_file (name : string) (c : stdio.contents)
  : stdio.filesystem :=
  fun n => if String.eqb n name then Some c else None.

(** "a.pst" as a wide string. *)
Definition a_pst : wstring := [97; 46; 112; 115; 116].

(** Four bytes. *)
Definition four_bytes : stdio.contents := contents_of_list [10; 20; 30; 40].

(** A file of [2^31 + 1] bytes: zeros, then a last byte 255. *)
Definition two_gib_and_one : stdio.contents :=
  stdio.mkContents (2 ^ 31 + 1) (fun i => if i <? 2 ^ 31 then 0 else 255).

(** A file of [2^32 + 2] bytes: zeros, then two bytes 255. *)
Definition four_gib_and_two : stdio.contents :=
  stdio.mkContents (2 ^ 32 + 2) (fun i => if i <? 2 ^ 32 then 0 else 255).

(** The object the constructor builds for "a.pst" when that file is [c]. *)
Definition opened (c : stdio.contents) : file :=
  mkFile a_pst (stdio.open_stream c true false false).

(** The bytes of [c] from [offset] on, [n] of them. *)
Definition bytes_at (c : stdio.contents) (offset n : Z) : list byte :=
  map (stdio.data c) (stdio.span offset n).

(** A value an 8-bit [byte] can hold. *)
Definition is_byte (b : Z) : Prop := 0 <= b < 256.

(** "a.pst" with its first letter replaced by U+0161, whose low eight
    bits are those of "a". *)
Definition s_caron_pst : wstring := [353; 46; 112; 115; 116].

Definition ulonglong_max : Z := 2 ^ ulonglong_bits - 1.
Definition time_t_min : Z := - 2 ^ (time_t_bits - 1).
Definition time_t_max : Z := 2 ^ (time_t_bits - 1) - 1.

(** * Properties *)

(** ** Wrap-around *)

Lemma pow2_half w : 0 < w -> 2 ^ w = 2 * 2 ^ (w - 1).
Proof.
  intros Hw. replace w with (Z.succ (w - 1)) at 1 by lia.
  apply Z.pow_succ_r. lia.
Qed.

Lemma to_signed_small w x :
  0 < w -> 0 <= x < 2 ^ (w - 1) -> Int.to_signed w x = x.
Proof.
  intros Hw Hx. unfold Int.to_signed.
  pose proof (pow2_half w Hw) as Hp.
  rewrite Z.mod_small by lia.
  destruct (Z.ltb_spec x (2 ^ (w - 1))); lia.
Qed.

(** Converting a signed value to the unsigned type of the same width only
    keeps the residue. *)
Lemma to_unsigned_to_signed w x :
  0 < w -> Int.to_unsigned w (Int.to_signed w x) = x mod 2 ^ w.
Proof.
  intros Hw. unfold Int.to_unsigned, Int.to_signed.
  assert (Hpos : 0 < 2 ^ w) by (apply Z.pow_pos_nonneg; lia).
  destruct (x mod 2 ^ w <? 2 ^ (w - 1)).
  - apply Z.mod_mod. lia.
  - replace (x mod 2 ^ w - 2 ^ w) with (x mod 2 ^ w + (-1) * 2 ^ w) by lia.
    rewrite Z.mod_add by lia. apply Z.mod_mod. lia.
Qed.

(** ** The FILETIME conversions *)

Lemma time_t_to_filetime_mod t :
  time_t_to_filetime t = (t * 10000000 + jan1970) mod 2 ^ 64.
Proof.
  unfold time_t_to_filetime, time_t_bits, ulonglong_bits.
  rewrite to_unsigned_to_signed by lia.
  unfold Int.to_unsigned. apply Z.add_mod_idemp_l. lia.
Qed.

Lemma filetime_to_time_t_unsigned ft :
  filetime_to_time_t ft = ((ft - jan1970) mod 2 ^ 64) / 10000000.
Proof.
  unfold filetime_to_time_t, time_t_bits, ulonglong_bits, Int.to_unsigned.
  apply to_signed_small; [lia|].
  pose proof (Z.mod_pos_bound (ft - jan1970) (2 ^ 64) ltac:(lia)) as Hm.
  split.
  - apply Z.div_pos; lia.
  - apply Z.div_lt_upper_bound; lia.
Qed.

Example year_2010 :
  time_t_to_filetime 1262304000 = 129067776000000000 /\
  filetime_to_time_t 129067776000000000 = 1262304000 /\
  filetime_to_time_t 129067776009999999 = 1262304000.
Proof. repeat split. Qed.

(** C2: a Unix time [t >= 0] whose tick count [t * 10000000] fits in 64 bits
    is reproduced exactly by the conversion to a FILETIME and back; the other
    direction loses the ticks below one second, so some FILETIME is not
    reproduced. *)
Theorem time_t_round_trip (t : Z)
  (Hnonneg : 0 <= t) (Hfits : t * 10000000 <= ulonglong_max) :
  filetime_to_time_t (time_t_to_filetime t) = t /\
  exists ft, 0 <= ft <= ulonglong_max /\
             time_t_to_filetime (filetime_to_time_t ft) <> ft.
Proof.
  unfold ulonglong_max, ulonglong_bits in *. split.
  - rewrite filetime_to_time_t_unsigned, time_t_to_filetime_mod.
    rewrite Zminus_mod_idemp_l.
    replace (t * 10000000 + jan1970 - jan1970) with (t * 10000000) by lia.
    rewrite Z.mod_small by lia.
    apply Z.div_mul. lia.
  - exists (jan1970 + 1). split; [unfold jan1970; lia|].
    vm_compute. discriminate.
Qed.

Lemma time_t_round_trip_witness :
  filetime_to_time_t (time_t_to_filetime 1262304000) = 1262304000 /\
  exists ft, 0 <= ft <= ulonglong_max /\
             time_t_to_filetime (filetime_to_time_t ft) <> ft.
Proof.
  apply (time_t_round_trip 1262304000).
  - lia.
  - vm_compute. discriminate.
Defined.

(** C5, as amended: a FILETIME [ft] at or after the Unix epoch converts to
    [(ft - 116444736000000000) / 10^7] truncated toward zero, and a Unix time
    [t] whose tick value [t * 10^7 + 116444736000000000] is a 64-bit unsigned
    number converts to exactly that value. *)
Theorem filetime_conversions_exact (ft t : Z)
  (Hft : jan1970 <= ft <= ulonglong_max)
  (Ht : 0 <= t * 10000000 + jan1970 <= ulonglong_max) :
  filetime_to_time_t ft = Z.quot (ft - jan1970) 10000000 /\
  time_t_to_filetime t = t * 10000000 + jan1970.
Proof.
  unfold ulonglong_max, ulonglong_bits in *. split.
  - rewrite filetime_to_time_t_unsigned.
    rewrite Z.mod_small by (unfold jan1970 in *; lia).
    symmetry. apply Z.quot_div_nonneg; lia.
  - rewrite time_t_to_filetime_mod. apply Z.mod_small. lia.
Qed.

Lemma filetime_conversions_exact_witness :
  filetime_to_time_t 129067776000000001
    = Z.quot (129067776000000001 - jan1970) 10000000 /\
  time_t_to_filetime (-86400) = (-86400) * 10000000 + jan1970.
Proof.
  apply (filetime_conversions_exact 129067776000000001 (-86400));
    vm_compute; split; discriminate.
Defined.

(** C5 as stated fails: one second before 1 January 1601 is a [time_t]
    value, and its conversion is not [t * 10^7 + 116444736000000000], which
    is negative there. *)
Lemma time_t_to_filetime_not_exact :
  time_t_min <= -11644473601 <= time_t_max /\
  time_t_to_filetime (-11644473601)
    <> (-11644473601) * 10000000 + 116444736000000000.
Proof. vm_compute. split; [split|]; discriminate. Qed.

(** C10: a FILETIME before the Unix epoch converts to
    [((ft - 116444736000000000) mod 2^64) / 10^7], the quotient of the
    wrapped-around difference, which is positive. *)
Theorem filetime_before_epoch_wraps (ft : Z)
  (Hft : 0 <= ft < jan1970) :
  filetime_to_time_t ft = ((ft - 116444736000000000) mod 2 ^ 64) / 10 ^ 7 /\
  filetime_to_time_t ft = (2 ^ 64 - (116444736000000000 - ft)) / 10 ^ 7 /\
  0 < filetime_to_time_t ft.
Proof.
  rewrite filetime_to_time_t_unsigned. unfold jan1970 in *.
  assert (Hm : (ft - 116444736000000000) mod 2 ^ 64
               = 2 ^ 64 - (116444736000000000 - ft)).
  { symmetry. apply Z.mod_unique with (q := -1); lia. }
  rewrite Hm. change (10 ^ 7) with 10000000.
  repeat split.
  apply Z.div_str_pos. lia.
Qed.

Lemma filetime_before_epoch_wraps_witness :
  filetime_to_time_t 0 = ((0 - 116444736000000000) mod 2 ^ 64) / 10 ^ 7 /\
  filetime_to_time_t 0 = (2 ^ 64 - (116444736000000000 - 0)) / 10 ^ 7 /\
  0 < filetime_to_time_t 0.
Proof.
  apply (filetime_before_epoch_wraps 0). vm_compute. split; [discriminate | reflexivity].
Defined.

(** ** The VT_DATE stubs *)

(** C8: whatever the argument, [vt_date_to_time_t] and [time_t_to_vt_date]
    throw [not_implemented] and return no value. *)
Theorem vt_date_helpers_not_implemented :
  (forall vt_time,
      vt_date_to_time_t vt_time
        = thrown (not_implemented "vt_date_to_time_t")) /\
  (forall time,
      time_t_to_vt_date time
        = thrown (not_implemented "vt_date_to_time_t")) /\
  (forall vt_time, has_returned (vt_date_to_time_t vt_time) = false) /\
  (forall time, has_returned (time_t_to_vt_date time) = false).
Proof. repeat split. Qed.

(** ** The bit test *)

(** Masking with a single bit is zero exactly when that bit is clear. *)
Lemma land_pow2_eqb b j :
  0 <= j -> (Z.land b (2 ^ j) =? 0) = negb (Z.testbit b j).
Proof.
  intros Hj.
  assert (Hland : Z.land b (2 ^ j) = if Z.testbit b j then 2 ^ j else 0).
  { apply Z.bits_inj'. intros n Hn.
    rewrite Z.land_spec, Z.pow2_bits_eqb by lia.
    destruct (Z.eqb_spec j n) as [->|Hne].
    - destruct (Z.testbit b n); simpl; [now rewrite Z.pow2_bits_true|].
      now rewrite Z.bits_0.
    - rewrite andb_false_r.
      destruct (Z.testbit b j); [|now rewrite Z.bits_0].
      rewrite Z.pow2_bits_false; [reflexivity | lia]. }
  rewrite Hland.
  assert (0 < 2 ^ j) by (apply Z.pow_pos_nonneg; lia).
  destruct (Z.testbit b j); simpl; [apply Z.eqb_neq; lia | reflexivity].
Qed.

(** [0x80 >> k] is the bit at distance [k] from the top of a byte. *)
Lemma mask_shiftr k : 0 <= k <= 7 -> Z.shiftr 128 k = 2 ^ (7 - k).
Proof.
  intros Hk. rewrite Z.shiftr_div_pow2 by lia.
  change 128 with (2 ^ 7).
  replace 7 with ((7 - k) + k) at 1 by lia.
  rewrite Z.pow_add_r by lia.
  apply Z.div_mul. apply Z.pow_nonzero; lia.
Qed.

Example test_bit_across_bytes :
  test_bit [1; 128] 6 = Some false /\ test_bit [1; 128] 7 = Some true /\
  test_bit [1; 128] 8 = Some true /\ test_bit [1; 128] 9 = Some false /\
  test_bit [1; 128] 16 = None.
Proof. repeat split. Qed.

(** C3: when byte [bit / 8] of the buffer is [b], [test_bit] answers whether
    bit [bit mod 8] of [b], counted from the most significant one, is set;
    so in a two-byte buffer index 7 is the lowest bit of byte 0 and index 8
    the highest bit of byte 1. *)
Theorem test_bit_msb_first (pbytes : list byte) (bit : Z) (b : byte)
  (Hbit : 0 <= bit)
  (Hbyte : nth_error pbytes (Z.to_nat (bit / 8)) = Some b) :
  test_bit pbytes bit = Some (Z.testbit b (7 - bit mod 8)) /\
  (forall b0 b1 : byte,
      test_bit [b0; b1] 7 = Some (Z.testbit b0 0) /\
      test_bit [b0; b1] 8 = Some (Z.testbit b1 7)).
Proof.
  assert (General : forall l i x,
             0 <= i -> nth_error l (Z.to_nat (i / 8)) = Some x ->
             test_bit l i = Some (Z.testbit x (7 - i mod 8))).
  { intros l i x Hi Hx. unfold test_bit.
    rewrite Z.shiftr_div_pow2 by lia. change (2 ^ 3) with 8.
    rewrite Hx. f_equal.
    change 7 with (Z.ones 3) at 1. rewrite Z.land_ones by lia.
    change (2 ^ 3) with 8.
    pose proof (Z.mod_pos_bound i 8 ltac:(lia)) as Hk.
    rewrite mask_shiftr by lia.
    rewrite land_pow2_eqb by lia.
    apply negb_involutive. }
  split.
  - now apply General.
  - intros b0 b1. split.
    + apply (General [b0; b1] 7 b0); [lia | reflexivity].
    + apply (General [b0; b1] 8 b1); [lia | reflexivity].
Qed.

Lemma test_bit_msb_first_witness :
  test_bit [1; 128; 0] 15 = Some (Z.testbit 128 (7 - 15 mod 8)) /\
  (forall b0 b1 : byte,
      test_bit [b0; b1] 7 = Some (Z.testbit b0 0) /\
      test_bit [b0; b1] 8 = Some (Z.testbit b1 7)).
Proof.
  apply (test_bit_msb_first [1; 128; 0] 15 128).
  - lia.
  - reflexivity.
Defined.

(** ** The file object *)

Lemma opened_by_constructor c :
  file_file (single_file "a.pst" c) a_pst = returned (opened c).
Proof. reflexivity. Qed.

(** The constructor either throws [runtime_error] or returns an object
    whose stream is open for reading only, at position 0, on the file the
    name denotes. *)
Lemma file_file_stream fs filename this :
  file_file fs filename = returned this ->
  exists c, fs (narrow filename) = Some c /\
            this = mkFile filename (stdio.open_stream c true false false).
Proof.
  unfold file_file. cbn.
  destruct (fs (narrow filename)) as [c|]; [|discriminate].
  intros H. injection H as <-. now exists c.
Qed.

(** Both branches of [seek], each refused or accepted. *)
Ltac seek_cases tg :=
  unfold seek, stdio.fseek;
  destruct (msvc tg);
  match goal with |- context [?x <? 0] => destruct (x <? 0) end.

Lemma seek_on_disk tg pfile offset :
  stdio.on_disk (snd (seek tg pfile offset)) = stdio.on_disk pfile.
Proof. seek_cases tg; reflexivity. Qed.

Lemma fread_on_disk count s :
  stdio.on_disk (snd (stdio.fread count s)) = stdio.on_disk s.
Proof. unfold stdio.fread. destruct (stdio.can_read s); reflexivity. Qed.

(** On a target with a 64-bit seek offset every offset below [2^63] is
    passed on unchanged, and the seek succeeds. *)
Lemma seek_wide tg pfile offset :
  wide_seek tg = true -> 0 <= offset < 2 ^ 63 ->
  seek tg pfile offset = (0, stdio.set_position pfile offset).
Proof.
  unfold wide_seek, seek. intros Hw Hoff.
  assert (Hs : Int.to_signed 64 offset = offset)
    by (apply to_signed_small; lia).
  destruct (msvc tg); simpl in Hw.
  - rewrite Hs. unfold stdio.fseek.
    destruct (Z.ltb_spec offset 0); [lia | reflexivity].
  - apply Z.eqb_eq in Hw. rewrite Hw, Hs. unfold stdio.fseek.
    destruct (Z.ltb_spec offset 0); [lia | reflexivity].
Qed.

(** [read] ends in one of three ways. *)
Lemma read_result_cases tg this buffer offset :
  read_result (read tg this buffer offset)
    = returned (Z.of_nat (List.length buffer)) \/
  read_result (read tg this buffer offset)
    = thrown (out_of_range "fseek failed") \/
  read_result (read tg this buffer offset)
    = thrown (out_of_range "fread failed").
Proof.
  unfold read.
  destruct (seek tg (m_pfile this) offset) as [rc pfile1].
  destruct (rc =? 0); simpl; [|now auto].
  destruct (stdio.fread _ pfile1) as [[n bytes] pfile2].
  destruct (Z.eqb_spec n (Z.of_nat (List.length buffer))) as [->|]; simpl;
    now auto.
Qed.

Example read_middle :
  read_result (read lp64 (opened four_bytes) [0; 0] 1) = returned 2 /\
  read_buffer (read lp64 (opened four_bytes) [0; 0] 1) = [20; 30] /\
  read_result (read lp64 (opened four_bytes) [0; 0] 2) = returned 2 /\
  read_buffer (read lp64 (opened four_bytes) [0; 0] 2) = [30; 40] /\
  read_result (read lp64 (opened four_bytes) [0; 0] 3)
    = thrown (out_of_range "fread failed") /\
  read_buffer (read lp64 (opened four_bytes) [0; 0] 3) = [40; 0].
Proof. repeat split. Qed.

(** C9: a call of [read] that returns, returns [buffer.size()]. *)
Theorem read_returns_buffer_size
  (tg : target) (this : file) (buffer : list byte) (offset n : Z)
  (Hret : read_result (read tg this buffer offset) = returned n) :
  n = Z.of_nat (List.length buffer).
Proof.
  destruct (read_result_cases tg this buffer offset) as [H|[H|H]];
    rewrite H in Hret; congruence.
Qed.

Lemma read_returns_buffer_size_witness :
  read_result (read lp64 (opened four_bytes) [0; 0] 1) = returned 2 /\
  2 = Z.of_nat (List.length [0; 0]).
Proof.
  split; [reflexivity|].
  apply (read_returns_buffer_size lp64 (opened four_bytes) [0; 0] 1 2).
  reflexivity.
Defined.

(** C7: whether it returns or throws, [read] leaves the bytes and the size
    of the underlying file as they were. *)
Theorem read_preserves_contents
  (tg : target) (this : file) (buffer : list byte) (offset : Z) :
  stdio.on_disk (m_pfile (read_this (read tg this buffer offset)))
    = stdio.on_disk (m_pfile this).
Proof.
  unfold read.
  pose proof (seek_on_disk tg (m_pfile this) offset) as Hseek.
  destruct (seek tg (m_pfile this) offset) as [rc pfile1]. simpl in Hseek.
  destruct (rc =? 0); simpl; [|exact Hseek].
  pose proof (fread_on_disk (Z.of_nat (List.length buffer)) pfile1) as Hread.
  destruct (stdio.fread _ pfile1) as [[n bytes] pfile2]. simpl in Hread.
  destruct (n =? _); simpl; congruence.
Qed.

(** With a 64-bit seek offset and a stream open for reading, a range that
    lies inside the file is read in full: [read] returns the buffer's size
    and the buffer holds the file's bytes from [offset] on. *)
Lemma read_wide_in_range tg this buffer offset :
  wide_seek tg = true ->
  stdio.can_read (m_pfile this) = true ->
  0 <= offset < 2 ^ 63 ->
  offset + Z.of_nat (List.length buffer)
    <= stdio.size (stdio.on_disk (m_pfile this)) ->
  read_result (read tg this buffer offset)
    = returned (Z.of_nat (List.length buffer)) /\
  read_buffer (read tg this buffer offset)
    = bytes_at (stdio.on_disk (m_pfile this)) offset
               (Z.of_nat (List.length buffer)).
Proof.
  intros Hw Hr Hoff Hin. unfold read.
  rewrite (seek_wide tg _ offset Hw Hoff). simpl.
  unfold stdio.fread. simpl. rewrite Hr. simpl.
  set (len := Z.of_nat (List.length buffer)) in *.
  assert (Hmin : Z.min len
                   (Z.max 0 (stdio.size (stdio.on_disk (m_pfile this))
                             - offset)) = len) by lia.
  rewrite Hmin, Z.eqb_refl. simpl. split; [reflexivity|].
  unfold len. rewrite Nat2Z.id, skipn_all, app_nil_r. reflexivity.
Qed.




(** C1 at its failing inputs.  On the four-byte file opened by the
    constructor, an empty buffer at offset 5 ([5 + 0 = 4 + 1]) is read
    without error; and where [fseek] takes a 32-bit [long], one byte at
    offset [2^31] of a file of [2^31 + 1] bytes (a range that ends at the
    file's end) is refused by the seek.  What does hold everywhere: [read]
    either returns or throws [out_of_range]. *)
Theorem read_boundary_divergence :
  (file_file (single_file "a.pst" four_bytes) a_pst
     = returned (opened four_bytes) /\
   stdio.size four_bytes = 4 /\
   read_result (read lp64 (opened four_bytes) [] 5) = returned 0 /\
   read_result (read msvc_target (opened four_bytes) [] 5) = returned 0) /\
  (2 ^ 31 + Z.of_nat (List.length [0]) = stdio.size two_gib_and_one /\
   read_result (read llp64_gcc (opened two_gib_and_one) [0] (2 ^ 31))
     = thrown (out_of_range "fseek failed")) /\
  (forall tg this buffer offset,
      has_returned (read_result (read tg this buffer offset)) = true \/
      is_out_of_range (read_result (read tg this buffer offset)) = true).
Proof.
  split; [|split].
  - repeat split; reflexivity.
  - split; vm_compute; reflexivity.
  - intros tg this buffer offset.
    destruct (read_result_cases tg this buffer offset) as [H|[H|H]];
      rewrite H; simpl; auto.
Qed.

(** C6 at its failing input: where [long] has 32 bits and the seek is
    [fseek], reading two bytes at offset [2^32] of a file of [2^32 + 2]
    bytes returns, but with the two bytes at offset 0. *)
Theorem read_truncates_offset :
  2 ^ 32 + Z.of_nat (List.length [7; 7]) <= stdio.size four_gib_and_two /\
  bytes_at four_gib_and_two (2 ^ 32) 2 = [255; 255] /\
  read_result (read llp64_gcc (opened four_gib_and_two) [7; 7] (2 ^ 32))
    = returned 2 /\
  read_buffer (read llp64_gcc (opened four_gib_and_two) [7; 7] (2 ^ 32))
    = [0; 0] /\
  read_buffer (read llp64_gcc (opened four_gib_and_two) [7; 7] (2 ^ 32))
    = bytes_at four_gib_and_two 0 2 /\
  read_buffer (read msvc_target (opened four_gib_and_two) [7; 7] (2 ^ 32))
    = [255; 255].
Proof.
  repeat split; vm_compute; congruence.
Qed.

(** ** Writing *)

Lemma seek_can_write tg pfile offset :
  stdio.can_write (snd (seek tg pfile offset)) = stdio.can_write pfile.
Proof. seek_cases tg; reflexivity. Qed.

(** A stream that is not open for writing transfers nothing and keeps the
    file as it is. *)
Lemma fwrite_read_only src s :
  stdio.can_write s = false ->
  fst (stdio.fwrite src s) = 0 /\
  stdio.on_disk (snd (stdio.fwrite src s)) = stdio.on_disk s.
Proof.
  intros Hcw. unfold stdio.fwrite. rewrite Hcw.
  destruct (Z.of_nat (List.length src) =? 0); split; reflexivity.
Qed.

(** C4 on the code: on an object built by the constructor the stream is
    open for reading only, so [write] throws [out_of_range] for every
    non-empty buffer at every offset, in range or not, and the file is left
    as it was. *)
Theorem write_on_constructed_file_throws
  (tg : target) (fs : stdio.filesystem) (filename : wstring) (this : file)
  (buffer : list byte) (offset : Z)
  (Hctor : file_file fs filename = returned this)
  (Hne : buffer <> []) :
  is_out_of_range (write_result (write tg this buffer offset)) = true /\
  stdio.on_disk (m_pfile (write_this (write tg this buffer offset)))
    = stdio.on_disk (m_pfile this).
Proof.
  destruct (file_file_stream fs filename this Hctor) as [c [_ ->]].
  assert (Hlen : 0 < Z.of_nat (List.length buffer))
    by (destruct buffer; [congruence | simpl; lia]).
  unfold write. cbn [m_pfile m_filename].
  pose proof (seek_on_disk tg (stdio.open_stream c true false false) offset)
    as Hdisk.
  pose proof (seek_can_write tg (stdio.open_stream c true false false) offset)
    as Hcw.
  destruct (seek tg _ offset) as [rc pfile1].
  cbn [snd] in Hdisk, Hcw. cbn [stdio.open_stream stdio.can_write] in Hcw.
  destruct (rc =? 0); cbn [negb].
  - destruct (fwrite_read_only buffer pfile1 Hcw) as [Hn Hkeep].
    destruct (stdio.fwrite buffer pfile1) as [n pfile2].
    cbn [fst snd] in Hn, Hkeep. subst n.
    destruct (Z.eqb_spec 0 (Z.of_nat (List.length buffer))) as [E|_]; [lia|].
    cbn. split; [reflexivity | rewrite Hkeep; exact Hdisk].
  - cbn. split; [reflexivity | exact Hdisk].
Qed.

Lemma write_on_constructed_file_throws_witness :
  0 + Z.of_nat (List.length [65]) <= stdio.size four_bytes /\
  write_result (write lp64 (opened four_bytes) [65] 0)
    = thrown (out_of_range "fwrite failed") /\
  is_out_of_range (write_result (write lp64 (opened four_bytes) [65] 0))
    = true /\
  stdio.on_disk (m_pfile (write_this (write lp64 (opened four_bytes) [65] 0)))
    = stdio.on_disk (m_pfile (opened four_bytes)).
Proof.
  split; [vm_compute; discriminate|].
  split; [reflexivity|].
  apply (write_on_constructed_file_throws lp64
           (single_file "a.pst" four_bytes) a_pst (opened four_bytes) [65] 0).
  - reflexivity.
  - discriminate.
Defined.

(** * Further properties of the file primitive *)

(** ** Ranges of positions *)

Lemma span_length start n : List.length (stdio.span start n) = Z.to_nat n.
Proof. unfold stdio.span. now rewrite length_map, length_seq. Qed.

Lemma bytes_at_length c offset n :
  List.length (bytes_at c offset n) = Z.to_nat n.
Proof. unfold bytes_at. now rewrite length_map, span_length. Qed.

Lemma bytes_at_nth c offset n i :
  0 <= i < n ->
  nth (Z.to_nat i) (bytes_at c offset n) 0 = stdio.data c (offset + i).
Proof.
  intros Hi. unfold bytes_at, stdio.span. rewrite map_map.
  rewrite nth_indep with (d' := stdio.data c (offset + Z.of_nat 0))
    by (rewrite length_map, length_seq; lia).
  rewrite (map_nth (fun k => stdio.data c (offset + Z.of_nat k))).
  rewrite seq_nth by lia. simpl. now rewrite Z2Nat.id by lia.
Qed.

Lemma map_seq_from {A} (g : nat -> A) a n :
  map g (seq a n) = map (fun k => g (a + k)%nat) (seq 0 n).
Proof.
  rewrite <- (Nat.add_0_r a) at 1. generalize 0%nat as b.
  induction n as [|n IH]; intros b; [reflexivity|].
  simpl. f_equal. rewrite <- Nat.add_succ_r. apply IH.
Qed.

Lemma bytes_at_app c offset n1 n2 :
  0 <= n1 -> 0 <= n2 ->
  bytes_at c offset (n1 + n2)
    = bytes_at c offset n1 ++ bytes_at c (offset + n1) n2.
Proof.
  intros H1 H2. unfold bytes_at, stdio.span.
  rewrite Z2Nat.inj_add by lia.
  rewrite seq_app, !map_app. f_equal.
  rewrite Nat.add_0_l, !map_map.
  rewrite map_seq_from. apply map_ext. intros k. f_equal. lia.
Qed.

(** ** What [read] returns, throws and stores *)







(** X2: with a 64-bit seek offset and a stream open for reading, a range
    that ends inside the file is delivered byte for byte: element [i] of
    the buffer after the call is the file's byte at [offset + i]. *)
Theorem read_delivers_file_bytes
  (tg : target) (this : file) (buffer : list byte) (offset i : Z)
  (Hwide : wide_seek tg = true)
  (Hread : stdio.can_read (m_pfile this) = true)
  (Hoff : 0 <= offset < 2 ^ 63)
  (Hin : offset + Z.of_nat (List.length buffer)
         <= stdio.size (stdio.on_disk (m_pfile this)))
  (Hi : 0 <= i < Z.of_nat (List.length buffer)) :
  nth (Z.to_nat i) (read_buffer (read tg this buffer offset)) 0
    = stdio.data (stdio.on_disk (m_pfile this)) (offset + i).
Proof.
  destruct (read_wide_in_range tg this buffer offset Hwide Hread Hoff Hin)
    as [_ ->].
  now apply bytes_at_nth.
Qed.

Lemma read_delivers_file_bytes_witness :
  nth (Z.to_nat 1) (read_buffer (read lp64 (opened four_bytes) [0; 0] 2)) 0
    = stdio.data (stdio.on_disk (m_pfile (opened four_bytes))) (2 + 1).
Proof.
  apply (read_delivers_file_bytes lp64 (opened four_bytes) [0; 0] 2 1).
  - reflexivity.
  - reflexivity.
  - lia.
  - vm_compute. discriminate.
  - simpl. lia.
Defined.




Lemma fread_transfer count s :
  0 <= count ->
  0 <= fst (fst (stdio.fread count s)) <= count /\
  List.length (snd (fst (stdio.fread count s)))
    = Z.to_nat (fst (fst (stdio.fread count s))).
Proof.
  intros Hc. unfold stdio.fread.
  destruct (stdio.can_read s); simpl.
  - split; [lia|]. now rewrite length_map, span_length.
  - split; [lia | reflexivity].
Qed.

(** X4: [read] never changes the size of the caller's buffer, whatever the
    target, the stream, the offset and the outcome. *)
Theorem read_keeps_buffer_size
  (tg : target) (this : file) (buffer : list byte) (offset : Z) :
  List.length (read_buffer (read tg this buffer offset))
    = List.length buffer.
Proof.
  unfold read.
  destruct (seek tg (m_pfile this) offset) as [rc pfile1].
  destruct (negb (rc =? 0)); [reflexivity|].
  pose proof (fread_transfer (Z.of_nat (List.length buffer)) pfile1
                ltac:(lia)) as [Hn Hb].
  destruct (stdio.fread _ pfile1) as [[n bytes] pfile2].
  cbn [fst snd] in Hn, Hb.
  assert (Hlen : List.length (bytes ++ skipn (Z.to_nat n) buffer)
                 = List.length buffer)
    by (rewrite length_app, length_skipn, Hb; lia).
  destruct (negb (n =? _)); exact Hlen.
Qed.



(** ** Reads one after another *)

Lemma seek_can_read tg pfile offset :
  stdio.can_read (snd (seek tg pfile offset)) = stdio.can_read pfile.
Proof. seek_cases tg; reflexivity. Qed.

Lemma fread_can_read count s :
  stdio.can_read (snd (stdio.fread count s)) = stdio.can_read s.
Proof. unfold stdio.fread. destruct (stdio.can_read s); reflexivity. Qed.

(** [read] leaves the stream on the same file and open in the same way. *)
Lemma read_this_stream tg this buffer offset :
  stdio.on_disk (m_pfile (read_this (read tg this buffer offset)))
    = stdio.on_disk (m_pfile this) /\
  stdio.can_read (m_pfile (read_this (read tg this buffer offset)))
    = stdio.can_read (m_pfile this).
Proof.
  unfold read.
  pose proof (seek_on_disk tg (m_pfile this) offset) as Hd.
  pose proof (seek_can_read tg (m_pfile this) offset) as Hr.
  destruct (seek tg (m_pfile this) offset) as [rc pfile1].
  cbn [snd] in Hd, Hr.
  destruct (negb (rc =? 0)); [now split|].
  pose proof (fread_on_disk (Z.of_nat (List.length buffer)) pfile1) as Hd'.
  pose proof (fread_can_read (Z.of_nat (List.length buffer)) pfile1) as Hr'.
  destruct (stdio.fread _ pfile1) as [[n bytes] pfile2].
  cbn [snd] in Hd', Hr'.
  destruct (negb (n =? _)); cbn; split; congruence.
Qed.

Lemma fread_fst_ext count s1 s2 :
  stdio.on_disk s1 = stdio.on_disk s2 ->
  stdio.can_read s1 = stdio.can_read s2 ->
  stdio.position s1 = stdio.position s2 ->
  fst (stdio.fread count s1) = fst (stdio.fread count s2).
Proof.
  intros Hd Hr Hp. unfold stdio.fread. rewrite Hd, Hr, Hp.
  destruct (stdio.can_read s2); reflexivity.
Qed.

Lemma seek_ext tg s1 s2 offset :
  fst (seek tg s1 offset) = fst (seek tg s2 offset) /\
  (fst (seek tg s1 offset) = 0 ->
   stdio.position (snd (seek tg s1 offset))
     = stdio.position (snd (seek tg s2 offset))).
Proof. seek_cases tg; cbn; split; intros; (reflexivity || discriminate). Qed.

(** The outcome and the buffer of [read] depend on the stream only through
    the file it is open on and through its being open for reading. *)
Lemma read_depends_on_file_only tg this that buffer offset :
  stdio.on_disk (m_pfile this) = stdio.on_disk (m_pfile that) ->
  stdio.can_read (m_pfile this) = stdio.can_read (m_pfile that) ->
  read_result (read tg this buffer offset)
    = read_result (read tg that buffer offset) /\
  read_buffer (read tg this buffer offset)
    = read_buffer (read tg that buffer offset).
Proof.
  intros Hd Hr. unfold read.
  destruct (seek_ext tg (m_pfile this) (m_pfile that) offset) as [Hrc Hpos].
  pose proof (seek_on_disk tg (m_pfile this) offset) as Hd1.
  pose proof (seek_on_disk tg (m_pfile that) offset) as Hd2.
  pose proof (seek_can_read tg (m_pfile this) offset) as Hr1.
  pose proof (seek_can_read tg (m_pfile that) offset) as Hr2.
  destruct (seek tg (m_pfile this) offset) as [rc1 p1].
  destruct (seek tg (m_pfile that) offset) as [rc2 p2].
  cbn [fst snd] in *. subst rc2.
  destruct (Z.eqb_spec rc1 0) as [E|_]; cbn [negb]; [|now split].
  pose proof (fread_fst_ext (Z.of_nat (List.length buffer)) p1 p2
                ltac:(congruence) ltac:(congruence) (Hpos E)) as Hf.
  destruct (stdio.fread _ p1) as [[n1 bytes1] q1].
  destruct (stdio.fread _ p2) as [[n2 bytes2] q2].
  cbn [fst] in Hf. injection Hf as -> ->.
  destruct (negb (n2 =? _)); now split.
Qed.

(** X6: a [read] does not depend on the reads made before it: after any
    earlier call, returned or thrown, it has the outcome and fills the buffer
    as it would have on the object as first opened. *)
Theorem read_independent_of_earlier_reads
  (tg : target) (this : file) (earlier buffer : list byte)
  (earlier_offset offset : Z) :
  read_result
    (read tg (read_this (read tg this earlier earlier_offset)) buffer offset)
    = read_result (read tg this buffer offset) /\
  read_buffer
    (read tg (read_this (read tg this earlier earlier_offset)) buffer offset)
    = read_buffer (read tg this buffer offset).
Proof.
  destruct (read_this_stream tg this earlier earlier_offset) as [Hd Hr].
  now apply read_depends_on_file_only.
Qed.

(** X7: with a 64-bit seek offset and a stream open for reading, one read of
    a range inside the file delivers what two consecutive reads of its two
    parts deliver, the second at the offset where the first ended. *)
Theorem read_whole_is_two_parts
  (tg : target) (this : file) (first second : list byte) (offset : Z)
  (Hwide : wide_seek tg = true)
  (Hread : stdio.can_read (m_pfile this) = true)
  (Hoff : 0 <= offset)
  (Hin : offset + Z.of_nat (List.length (first ++ second))
         <= stdio.size (stdio.on_disk (m_pfile this)))
  (Hmax : stdio.size (stdio.on_disk (m_pfile this)) < 2 ^ 63) :
  read_buffer (read tg this (first ++ second) offset)
    = read_buffer (read tg this first offset)
      ++ read_buffer
           (read tg (read_this (read tg this first offset)) second
                 (offset + Z.of_nat (List.length first))).
Proof.
  rewrite length_app, Nat2Z.inj_add in Hin.
  destruct (read_this_stream tg this first offset) as [Hd Hr].
  destruct (read_depends_on_file_only tg
              (read_this (read tg this first offset)) this second
              (offset + Z.of_nat (List.length first)) Hd Hr) as [_ ->].
  destruct (read_wide_in_range tg this (first ++ second) offset)
    as [_ ->]; [assumption | assumption | lia | | ].
  - rewrite length_app, Nat2Z.inj_add. lia.
  - destruct (read_wide_in_range tg this first offset) as [_ ->];
      [assumption | assumption | lia | lia | ].
    destruct (read_wide_in_range tg this second
                (offset + Z.of_nat (List.length first))) as [_ ->];
      [assumption | assumption | lia | lia | ].
    rewrite length_app, Nat2Z.inj_add. apply bytes_at_app; lia.
Qed.

Lemma read_whole_is_two_parts_witness :
  read_buffer (read lp64 (opened four_bytes) ([0] ++ [0; 0]) 1)
    = read_buffer (read lp64 (opened four_bytes) [0] 1)
      ++ read_buffer
           (read lp64 (read_this (read lp64 (opened four_bytes) [0] 1))
                 [0; 0] (1 + Z.of_nat (List.length [0]))).
Proof.
  apply (read_whole_is_two_parts lp64 (opened four_bytes) [0] [0; 0] 1).
  - reflexivity.
  - reflexivity.
  - lia.
  - vm_compute. discriminate.
  - vm_compute. reflexivity.
Defined.

(** ** Offsets and the width of [long] *)

Lemma to_signed_period w x : Int.to_signed w (x + 2 ^ w) = Int.to_signed w x.
Proof.
  unfold Int.to_signed.
  destruct (Z.eq_dec (2 ^ w) 0) as [E|Hnz].
  - now rewrite E, Z.add_0_r.
  - replace (x + 2 ^ w) with (x + 1 * 2 ^ w) by lia.
    now rewrite Z.mod_add.
Qed.

(** X8: where the seek is [fseek], [read] sees the offset only through its
    low [long_bits] bits: an offset and the same offset plus [2^long_bits]
    give the same outcome, the same buffer and the same stream. *)
Theorem read_offset_modulo_long
  (tg : target) (this : file) (buffer : list byte) (offset : Z)
  (Hgcc : msvc tg = false) :
  read tg this buffer (offset + 2 ^ long_bits tg)
    = read tg this buffer offset.
Proof.
  unfold read, seek. rewrite Hgcc, to_signed_period. reflexivity.
Qed.

Lemma read_offset_modulo_long_witness :
  read llp64_gcc (opened four_bytes) [0; 0] (1 + 2 ^ long_bits llp64_gcc)
    = read llp64_gcc (opened four_bytes) [0; 0] 1.
Proof.
  apply (read_offset_modulo_long llp64_gcc (opened four_bytes) [0; 0] 1).
  reflexivity.
Defined.

(** ** Opening *)

(** X9: an object the constructor returns reads the file its name denotes:
    with a 64-bit seek offset, a range that ends inside that file is
    returned in full, with that file's bytes in the buffer. *)
Theorem constructed_file_reads_named_file
  (tg : target) (fs : stdio.filesystem) (filename : wstring) (this : file)
  (c : stdio.contents) (buffer : list byte) (offset : Z)
  (Hctor : file_file fs filename = returned this)
  (Hfile : fs (narrow filename) = Some c)
  (Hwide : wide_seek tg = true)
  (Hoff : 0 <= offset < 2 ^ 63)
  (Hin : offset + Z.of_nat (List.length buffer) <= stdio.size c) :
  read_result (read tg this buffer offset)
    = returned (Z.of_nat (List.length buffer)) /\
  read_buffer (read tg this buffer offset)
    = bytes_at c offset (Z.of_nat (List.length buffer)).
Proof.
  destruct (file_file_stream fs filename this Hctor) as [c' [Hc' ->]].
  assert (c' = c) by congruence. subst c'.
  apply read_wide_in_range; [assumption | reflexivity | assumption | exact Hin].
Qed.

Lemma constructed_file_reads_named_file_witness :
  read_result (read msvc_target (opened four_bytes) [0; 0; 0] 1)
    = returned (Z.of_nat (List.length [0; 0; 0])) /\
  read_buffer (read msvc_target (opened four_bytes) [0; 0; 0] 1)
    = bytes_at four_bytes 1 (Z.of_nat (List.length [0; 0; 0])).
Proof.
  apply (constructed_file_reads_named_file msvc_target
           (single_file "a.pst" four_bytes) a_pst (opened four_bytes)
           four_bytes [0; 0; 0] 1).
  - reflexivity.
  - reflexivity.
  - reflexivity.
  - lia.
  - vm_compute. discriminate.
Defined.

Lemma narrow_low_bits w1 w2 :
  map (fun c => c mod 256) w1 = map (fun c => c mod 256) w2 ->
  narrow w1 = narrow w2.
Proof.
  intros H. unfold narrow. f_equal.
  change (fun c => ascii_of_N (Z.to_N (Int.to_unsigned 8 c)))
    with (fun c => (fun r => ascii_of_N (Z.to_N r)) ((fun c => c mod 256) c)).
  rewrite <- !(map_map (fun c => c mod 256)
                       (fun r => ascii_of_N (Z.to_N r))).
  now rewrite H.
Qed.

(** X10: the constructor looks at the low eight bits of each wide character
    of the file name only: two names whose characters agree modulo 256 open
    the same file, or both fail to open. *)
Theorem constructor_narrows_filename
  (fs : stdio.filesystem) (name1 name2 : wstring)
  (Hlow : map (fun c => c mod 256) name1 = map (fun c => c mod 256) name2) :
  match file_file fs name1, file_file fs name2 with
  | returned this1, returned this2 => m_pfile this1 = m_pfile this2
  | thrown e1, thrown e2 => e1 = e2
  | _, _ => False
  end.
Proof.
  unfold file_file. rewrite (narrow_low_bits name1 name2 Hlow).
  destruct (stdio.fopen fs (narrow name2) "rb"); reflexivity.
Qed.

Lemma constructor_narrows_filename_witness :
  match file_file (single_file "a.pst" four_bytes) s_caron_pst,
        file_file (single_file "a.pst" four_bytes) a_pst with
  | returned this1, returned this2 => m_pfile this1 = m_pfile this2
  | thrown e1, thrown e2 => e1 = e2
  | _, _ => False
  end.
Proof.
  apply (constructor_narrows_filename (single_file "a.pst" four_bytes)
           s_caron_pst a_pst).
  reflexivity.
Defined.

(** ** [write] on a stream that is open for reading only *)



(** X12: through a stream that is not open for writing, as every stream the
    constructor opens is, [write] never changes the file, whatever the
    target, the buffer, the offset and the outcome; nor does it make the
    stream writable. *)
Theorem write_read_only_keeps_file
  (tg : target) (this : file) (buffer : list byte) (offset : Z)
  (Hro : stdio.can_write (m_pfile this) = false) :
  stdio.on_disk (m_pfile (write_this (write tg this buffer offset)))
    = stdio.on_disk (m_pfile this) /\
  stdio.can_write (m_pfile (write_this (write tg this buffer offset)))
    = false.
Proof.
  unfold write.
  pose proof (seek_on_disk tg (m_pfile this) offset) as Hd.
  pose proof (seek_can_write tg (m_pfile this) offset) as Hw.
  destruct (seek tg (m_pfile this) offset) as [rc pfile1].
  cbn [snd] in Hd, Hw. rewrite Hro in Hw.
  destruct (negb (rc =? 0)); [now split|].
  destruct (fwrite_read_only buffer pfile1 Hw) as [_ Hkeep].
  assert (Hw' : stdio.can_write (snd (stdio.fwrite buffer pfile1)) = false).
  { unfold stdio.fwrite. rewrite Hw.
    destruct (Z.of_nat (List.length buffer) =? 0); cbn;
      first [assumption | reflexivity]. }
  destruct (stdio.fwrite buffer pfile1) as [n pfile2].
  cbn [snd] in Hkeep, Hw'.
  destruct (negb (n =? _)); cbn; split; congruence.
Qed.

Lemma write_read_only_keeps_file_witness :
  stdio.on_disk
    (m_pfile (write_this (write lp64 (opened four_bytes) [1; 2] 1)))
    = stdio.on_disk (m_pfile (opened four_bytes)) /\
  stdio.can_write
    (m_pfile (write_this (write lp64 (opened four_bytes) [1; 2] 1)))
    = false.
Proof.
  apply (write_read_only_keeps_file lp64 (opened four_bytes) [1; 2] 1).
  reflexivity.
Defined.

(** * Further properties of the FILETIME conversions *)

Lemma filetime_to_time_t_after_epoch ft :
  jan1970 <= ft < 2 ^ 64 ->
  filetime_to_time_t ft = (ft - jan1970) / 10000000.
Proof.
  intros H. rewrite filetime_to_time_t_unsigned.
  rewrite Z.mod_small by (unfold jan1970 in *; lia). reflexivity.
Qed.

Lemma time_t_to_filetime_in_range t :
  0 <= t * 10000000 + jan1970 < 2 ^ 64 ->
  time_t_to_filetime t = t * 10000000 + jan1970.
Proof. intros H. rewrite time_t_to_filetime_mod. now apply Z.mod_small. Qed.

Lemma jan1970_whole_seconds : jan1970 = 11644473600 * 10000000.
Proof. reflexivity. Qed.

(** X13: a FILETIME at or after the Unix epoch, converted to [time_t] and
    back, comes back rounded down to a whole second: the result is
    [ft - ft mod 10^7], so it is [ft] again exactly when [ft] is a multiple
    of [10^7] ticks. *)
Theorem filetime_round_trip_truncates (ft : Z)
  (Hft : jan1970 <= ft <= ulonglong_max) :
  time_t_to_filetime (filetime_to_time_t ft) = ft - ft mod 10000000 /\
  (time_t_to_filetime (filetime_to_time_t ft) = ft <->
   ft mod 10000000 = 0).
Proof.
  unfold ulonglong_max, ulonglong_bits in Hft.
  assert (Hval : time_t_to_filetime (filetime_to_time_t ft)
                 = ft - ft mod 10000000).
  { rewrite filetime_to_time_t_after_epoch by lia.
    assert (Hm : (ft - jan1970) mod 10000000 = ft mod 10000000).
    { rewrite jan1970_whole_seconds.
      replace (ft - 11644473600 * 10000000)
        with (ft + (-11644473600) * 10000000) by lia.
      apply Z.mod_add. lia. }
    pose proof (Z.div_mod (ft - jan1970) 10000000 ltac:(lia)) as Hdm.
    pose proof (Z.mod_pos_bound ft 10000000 ltac:(lia)) as Hb.
    pose proof jan1970_whole_seconds as HJ.
    rewrite time_t_to_filetime_in_range; lia. }
  split; [exact Hval|]. rewrite Hval. lia.
Qed.

Lemma filetime_round_trip_truncates_witness :
  time_t_to_filetime (filetime_to_time_t 129067776012345678)
    = 129067776012345678 - 129067776012345678 mod 10000000 /\
  (time_t_to_filetime (filetime_to_time_t 129067776012345678)
     = 129067776012345678 <->
   129067776012345678 mod 10000000 = 0).
Proof.
  apply (filetime_round_trip_truncates 129067776012345678).
  vm_compute. split; discriminate.
Defined.

(** X14: from the Unix epoch on, [filetime_to_time_t] keeps the order of
    instants: a later FILETIME never converts to an earlier [time_t]. *)
Theorem filetime_to_time_t_monotone (ft1 ft2 : Z)
  (Hepoch : jan1970 <= ft1)
  (Hle : ft1 <= ft2)
  (Hmax : ft2 <= ulonglong_max) :
  filetime_to_time_t ft1 <= filetime_to_time_t ft2.
Proof.
  unfold ulonglong_max, ulonglong_bits in Hmax.
  rewrite !filetime_to_time_t_after_epoch by lia.
  apply Z.div_le_mono; lia.
Qed.

Lemma filetime_to_time_t_monotone_witness :
  filetime_to_time_t 129067776000000000
    <= filetime_to_time_t 129067776012345678.
Proof.
  apply (filetime_to_time_t_monotone 129067776000000000 129067776012345678);
    vm_compute; discriminate.
Defined.

(** X15: on the Unix times whose tick value is a 64-bit unsigned number,
    [time_t_to_filetime] is strictly increasing, so no two of them share a
    FILETIME, and consecutive seconds are [10^7] ticks apart. *)
Theorem time_t_to_filetime_increasing (t1 t2 : Z)
  (Hmin : 0 <= t1 * 10000000 + jan1970)
  (Hlt : t1 < t2)
  (Hmax : t2 * 10000000 + jan1970 <= ulonglong_max) :
  time_t_to_filetime t1 < time_t_to_filetime t2 /\
  time_t_to_filetime t2 - time_t_to_filetime t1 = (t2 - t1) * 10000000.
Proof.
  unfold ulonglong_max, ulonglong_bits in Hmax.
  rewrite !time_t_to_filetime_in_range by lia. lia.
Qed.

Lemma time_t_to_filetime_increasing_witness :
  time_t_to_filetime (-1) < time_t_to_filetime 1262304000 /\
  time_t_to_filetime 1262304000 - time_t_to_filetime (-1)
    = (1262304000 - -1) * 10000000.
Proof.
  apply (time_t_to_filetime_increasing (-1) 1262304000);
    vm_compute; first [discriminate | reflexivity].
Defined.

(** X16: [filetime_to_time_t] never returns a negative time and never more
    than 1844674407370 seconds, whatever the FILETIME. *)
Theorem filetime_to_time_t_bounds (ft : Z) :
  0 <= filetime_to_time_t ft <= 1844674407370.
Proof.
  rewrite filetime_to_time_t_unsigned.
  pose proof (Z.mod_pos_bound (ft - jan1970) (2 ^ 64) ltac:(lia)) as Hm.
  split.
  - apply Z.div_pos; lia.
  - assert ((ft - jan1970) mod 2 ^ 64 / 10000000 < 1844674407371);
      [apply Z.div_lt_upper_bound; lia | lia].
Qed.

(** X17: between the Unix epoch's FILETIME range and the Unix times that
    have a 64-bit tick value the two conversions are adjoint: [t] is at
    most the time of [ft] exactly when the FILETIME of [t] is at most
    [ft]. *)
Theorem filetime_conversions_adjoint (ft t : Z)
  (Hft : jan1970 <= ft <= ulonglong_max)
  (Ht : 0 <= t * 10000000 + jan1970 <= ulonglong_max) :
  t <= filetime_to_time_t ft <-> time_t_to_filetime t <= ft.
Proof.
  unfold ulonglong_max, ulonglong_bits in *.
  rewrite filetime_to_time_t_after_epoch by lia.
  rewrite time_t_to_filetime_in_range by lia.
  pose proof (Z.div_mod (ft - jan1970) 10000000 ltac:(lia)) as Hdm.
  pose proof (Z.mod_pos_bound (ft - jan1970) 10000000 ltac:(lia)) as Hb.
  split; intros H; nia.
Qed.

Lemma filetime_conversions_adjoint_witness :
  1262304000 <= filetime_to_time_t 129067776012345678 <->
  time_t_to_filetime 1262304000 <= 129067776012345678.
Proof.
  apply (filetime_conversions_adjoint 129067776012345678 1262304000);
    vm_compute; split; discriminate.
Defined.

(** * Further properties of the bit test *)

Lemma test_bit_addressed l i x :
  0 <= i -> nth_error l (Z.to_nat (i / 8)) = Some x ->
  test_bit l i = Some (Z.testbit x (7 - i mod 8)).
Proof.
  intros Hi Hx. unfold test_bit.
  rewrite Z.shiftr_div_pow2 by lia. change (2 ^ 3) with 8.
  rewrite Hx. f_equal.
  change 7 with (Z.ones 3) at 1. rewrite Z.land_ones by lia.
  change (2 ^ 3) with 8.
  pose proof (Z.mod_pos_bound i 8 ltac:(lia)) as Hk.
  rewrite mask_shiftr by lia.
  rewrite land_pow2_eqb by lia.
  apply negb_involutive.
Qed.

(** X18: bit indices add up with the bytes skipped: testing bit [bit] of a
    buffer equals testing bit [8 * n + bit] of a buffer that has [n] more
    bytes in front, as for a pointer advanced by [n] bytes. *)
Theorem test_bit_skips_whole_bytes
  (skipped pbytes : list byte) (bit : Z)
  (Hbit : 0 <= bit) :
  test_bit (skipped ++ pbytes) (8 * Z.of_nat (List.length skipped) + bit)
    = test_bit pbytes bit.
Proof.
  unfold test_bit.
  rewrite (Z.shiftr_div_pow2 bit 3) by lia.
  rewrite (Z.shiftr_div_pow2 (8 * Z.of_nat (List.length skipped) + bit) 3)
    by lia.
  change 7 with (Z.ones 3).
  rewrite (Z.land_ones bit 3) by lia.
  rewrite (Z.land_ones (8 * Z.of_nat (List.length skipped) + bit) 3) by lia.
  change (2 ^ 3) with 8.
  replace (8 * Z.of_nat (List.length skipped) + bit)
    with (bit + Z.of_nat (List.length skipped) * 8) by lia.
  rewrite Z.div_add, Z.mod_add by lia.
  assert (0 <= bit / 8) by (apply Z.div_pos; lia).
  rewrite Z2Nat.inj_add, Nat2Z.id by lia.
  rewrite nth_error_app2 by lia.
  replace (Z.to_nat (bit / 8) + List.length skipped - List.length skipped)%nat
    with (Z.to_nat (bit / 8)) by lia.
  reflexivity.
Qed.

Lemma test_bit_skips_whole_bytes_witness :
  test_bit ([1; 2] ++ [128; 0]) (8 * Z.of_nat (List.length [1; 2]) + 0)
    = test_bit [128; 0] 0.
Proof.
  apply (test_bit_skips_whole_bytes [1; 2] [128; 0] 0). lia.
Defined.

Lemma byte_high_bits b n : is_byte b -> 8 <= n -> Z.testbit b n = false.
Proof.
  intros Hb Hn. apply Z.testbit_false; [lia|].
  assert (2 ^ 8 <= 2 ^ n) by (apply Z.pow_le_mono_r; lia).
  unfold is_byte in Hb. rewrite Z.div_small by lia. reflexivity.
Qed.

(** X19: the bit tests tell a buffer completely: two buffers of the same
    size, of 8-bit bytes, on which [test_bit] agrees at every bit index
    within the buffer are the same buffer. *)
Theorem test_bit_determines_buffer (pbytes1 pbytes2 : list byte)
  (Hsize : List.length pbytes1 = List.length pbytes2)
  (Hbytes1 : Forall is_byte pbytes1)
  (Hbytes2 : Forall is_byte pbytes2)
  (Hbits : forall bit,
      0 <= bit < 8 * Z.of_nat (List.length pbytes1) ->
      test_bit pbytes1 bit = test_bit pbytes2 bit) :
  pbytes1 = pbytes2.
Proof.
  apply nth_error_ext. intros i.
  destruct (Nat.lt_ge_cases i (List.length pbytes1)) as [Hi|Hi].
  - destruct (nth_error pbytes1 i) as [b1|] eqn:E1;
      [|apply nth_error_None in E1; lia].
    destruct (nth_error pbytes2 i) as [b2|] eqn:E2;
      [|apply nth_error_None in E2; lia].
    f_equal.
    assert (Hb1 : is_byte b1)
      by (eapply Forall_forall; [exact Hbytes1 | eapply nth_error_In; eauto]).
    assert (Hb2 : is_byte b2)
      by (eapply Forall_forall; [exact Hbytes2 | eapply nth_error_In; eauto]).
    apply Z.bits_inj'. intros n Hn.
    destruct (Z.lt_ge_cases n 8) as [Hlow|Hhigh].
    + set (bit := Z.of_nat i * 8 + (7 - n)).
      assert (Hdiv : bit / 8 = Z.of_nat i).
      { unfold bit. rewrite Z.add_comm, Z.div_add by lia.
        rewrite Z.div_small by lia. lia. }
      assert (Hmod : bit mod 8 = 7 - n).
      { unfold bit. rewrite Z.add_comm, Z.mod_add by lia.
        apply Z.mod_small. lia. }
      assert (Hrange : 0 <= bit < 8 * Z.of_nat (List.length pbytes1))
        by (unfold bit; lia).
      pose proof (Hbits bit Hrange) as Heq.
      rewrite (test_bit_addressed pbytes1 bit b1) in Heq
        by (rewrite ?Hdiv, ?Nat2Z.id; (lia || assumption)).
      rewrite (test_bit_addressed pbytes2 bit b2) in Heq
        by (rewrite ?Hdiv, ?Nat2Z.id; (lia || assumption)).
      rewrite Hmod in Heq.
      replace (7 - (7 - n)) with n in Heq by lia. congruence.
    + now rewrite !byte_high_bits.
  - assert (E1 : nth_error pbytes1 i = None) by (apply nth_error_None; lia).
    assert (E2 : nth_error pbytes2 i = None) by (apply nth_error_None; lia).
    congruence.
Qed.

Lemma test_bit_determines_buffer_witness : [1; 128] = [1; 128].
Proof.
  apply (test_bit_determines_buffer [1; 128] [1; 128]).
  - reflexivity.
  - repeat constructor; unfold is_byte; lia.
  - repeat constructor; unfold is_byte; lia.
  - intros bit _. reflexivity.
Defined.
